(** * Registering a chart repository: [addRepository] of cmd/helm/repo_add.go

    The command adds (or replaces) one entry of the repositories file,
    after it has fetched the index of the repository.  The repositories
    file is shared between processes, so the function reads it a first
    time without protection, fetches the index, takes a file lock on the
    repositories file, reads the file again and only then updates and
    writes it.

    The development embeds [addRepository] as a program of a small monad
    over a [World]: the named files, the temporary files, the lock this
    process holds, the time it spent waiting for the lock and the trace of
    what it did.  What does not depend on the program (the network, the
    other processes, the faults of the disk) is an [Env], a value the
    program consults and never changes. *)

From Stdlib Require Import ZArith String List Bool Lia.
From stdpp Require Import base option list strings gmap.

Local Open Scope Z_scope.
Local Open Scope string_scope.

(** ** Data model *)

(** [repo.Entry]: one registered repository. *)
Record Entry := mkEntry {
  Name : string;
  Cache : string;
  URL : string;
  Username : string;
  Password : string;
  CertFile : string;
  KeyFile : string;
  CAFile : string
}.

#[global] Instance Entry_eq_dec : EqDecision Entry.
Proof. solve_decision. Defined.

(** [repo.RepoFile]: the ordered collection of the entries. *)
Abbreviation RepoFile := (list Entry).

(** The names of a registry, in the order of the file. *)
Definition names (r : RepoFile) : list string := map Name r.

(** The entries of [r] that are called [name]. *)
Definition entries_named (name : string) (r : RepoFile) : RepoFile :=
  filter (fun e => Name e = name) r.

(** The invariant of the data model: no two entries share a name. *)
Definition wf_registry (r : RepoFile) : Prop := NoDup (names r).

(** What a named file holds.  The serialisation is not modelled: a file
    that holds a complete serialised registry is [RegistryData] of that
    registry, a cached index is [IndexData], a file that was created or
    cut short before all its bytes were there is [Partial], anything else
    is [Garbage]. *)
Inductive content :=
| RegistryData (r : RepoFile)
| IndexData (idx : string)
| Partial
| Garbage (raw : string).

(** The errors [addRepository] returns.  [ErrExists] and [ErrInvalidRepo]
    are the two it builds itself (with [fmt.Errorf]); the others come from
    what it calls and are returned as they are. *)
Inductive error :=
| ErrExists (name : string)
| ErrInvalidRepo (url : string) (cause : error)
| LockTimeout
| LockAcquisitionError (msg : string)
| PersistenceError (path : string)
| FetchError (msg : string)
| GetterError (msg : string).

(** The text of an error ([err.Error()]).  [quote] is what the verb [%q]
    of [fmt] does to a string, [text] the text of the errors that
    [addRepository] does not build itself. *)
Fixpoint Error (quote : string -> string) (text : error -> string) (e : error)
    : string :=
  match e with
  | ErrExists name =>
      "repository name (" ++ name ++ ") already exists, please specify a different name"
  | ErrInvalidRepo url cause =>
      "Looks like " ++ quote url
        ++ " is not a valid chart repository or cannot be reached: "
        ++ Error quote text cause
  | _ => text e
  end.

(** [time.Duration] counts nanoseconds. *)
Definition Second : Z := 1000000000.

(** What this process did, in order. *)
Inductive event :=
| EvLoad (path : string)
| EvFetch (url : string) (ok : bool)
| EvStore (path : string)
| EvTryLock (path : string) (timeout delay : Z)
| EvAcquired (path : string)
| EvCreateTemp
| EvFillTemp
| EvRename (path : string) (perm : Z)
| EvUnlock (path : string).

#[global] Instance event_eq_dec : EqDecision event.
Proof. solve_decision. Defined.

Record World := mkWorld {
  files : gmap string content;
  temps : list content;
  held : bool;
  waited : Z;
  trace : list event
}.

(** A process that starts on the files [fs]. *)
Definition start (fs : gmap string content) : World :=
  mkWorld fs [] false 0 [].

(** A new process on the disk another one left. *)
Definition fresh (w : World) : World :=
  mkWorld (files w) (temps w) false 0 [].

Definition set_files (fs : gmap string content) (w : World) : World :=
  mkWorld fs (temps w) (held w) (waited w) (trace w).

Definition set_temps (ts : list content) (w : World) : World :=
  mkWorld (files w) ts (held w) (waited w) (trace w).

Definition set_held (b : bool) (w : World) : World :=
  mkWorld (files w) (temps w) b (waited w) (trace w).

Definition add_wait (d : Z) (w : World) : World :=
  mkWorld (files w) (temps w) (held w) (waited w + d) (trace w).

Definition log (e : event) (w : World) : World :=
  mkWorld (files w) (temps w) (held w) (waited w) (trace w ++ [e]).

(** ** The environment *)

(** One attempt to take the lock. *)
Inductive lock_probe_result :=
| LockFree
| LockBusy
| LockFault (msg : string).

(** The steps of a write, in order. *)
Inductive fsop :=
| CreateTemp
| FillTemp (c : content)
| Rename (path : string) (perm : Z).

(** Where a write ends. *)
Inductive write_stage := AtCreateTemp | AtFillTemp | AtRename.

Definition steps_before (s : write_stage) : nat :=
  match s with
  | AtCreateTemp => 0
  | AtFillTemp => 1
  | AtRename => 2
  end%nat.

(** Where the process can die during a write: before one of the steps, or
    after the last one and before the function returns. *)
Inductive crash_point := BeforeCreate | BeforeFill | BeforeRename | AfterRename.

Definition steps_done (p : crash_point) : nat :=
  match p with
  | BeforeCreate => 0
  | BeforeFill => 1
  | BeforeRename => 2
  | AfterRename => 3
  end%nat.

Inductive write_fate :=
| WriteCompletes
| WriteFails (s : write_stage)
| WriteInterrupted (p : crash_point).

Record Env := mkEnv {
  (** the error of [repo.NewChartRepository], when it has one *)
  getter_fault : Entry -> option error;
  (** what fetching the index of an entry gives: an error or the index *)
  remote_index : Entry -> error + string;
  (** what the other processes do to the files while the index is fetched *)
  during_fetch : gmap string content -> gmap string content;
  (** the state of the lock when it is tried, by the time waited so far *)
  lock_probe : Z -> lock_probe_result;
  (** what the other processes do to the files while the lock is awaited *)
  during_wait : gmap string content -> gmap string content;
  (** how the write of the registry ends *)
  write_end : write_fate
}.

(** [helmpath.Home]: the three paths [addRepository] asks of it. *)
Record Home := mkHome {
  RepositoryFile : string;
  CacheDir : string;
  CacheIndex : string -> string
}.

(** ** The monad *)

Inductive outcome (A : Type) :=
| Ok (a : A)
| Err (e : error)
| Crash.

Arguments Ok {A} a.
Arguments Err {A} e.
Arguments Crash {A}.

Definition M (A : Type) : Type := World -> World * outcome A.

Definition ret {A} (a : A) : M A := fun w => (w, Ok a).

Definition throw {A} (e : error) : M A := fun w => (w, Err e).

Definition bind {A B} (m : M A) (k : A -> M B) : M B := fun w =>
  match m w with
  | (w', Ok a) => k a w'
  | (w', Err e) => (w', Err e)
  | (w', Crash) => (w', Crash)
  end.

Notation "x <- c1 ;; c2" := (bind c1 (fun x => c2))
  (at level 100, c1 at next level, right associativity).

(** [if err := m; err != nil { return h err }] *)
Definition wrap_error {A} (h : error -> error) (m : M A) : M A := fun w =>
  match m w with
  | (w', Err e) => (w', Err (h e))
  | r => r
  end.

(** [defer cleanup()], registered when [registered] holds: the cleanup runs
    when the body returns, with a value or with an error; it does not run
    when the process dies. *)
Definition deferring {A} (registered : bool) (cleanup : World -> World)
    (body : M A) : M A := fun w =>
  match body w with
  | (w', Crash) => (w', Crash)
  | (w', r) => (if registered then cleanup w' else w', r)
  end.

(** ** The registry store (package repo) *)

(** Modelled from the spec: [Has] of package repo is not under src/.
    "existence check by key". *)
Definition Has (r : RepoFile) (name : string) : bool :=
  existsb (fun e => String.eqb (Name e) name) r.

(** Modelled from the spec: [Update] of package repo is not under src/.
    "insert-or-replace by name", the order of the other entries kept: the
    entry of that name is replaced where it is, a new name goes last. *)
Fixpoint Update (r : RepoFile) (e : Entry) : RepoFile :=
  match r with
  | [] => [e]
  | x :: rest =>
      if String.eqb (Name x) (Name e) then e :: rest else x :: Update rest e
  end.

(** What parsing the file at [path] gives: a missing file is the empty
    registry, a file that is not a complete registry is an error. *)
Definition parse_registry (path : string) (c : option content) : outcome RepoFile :=
  match c with
  | None => Ok []
  | Some (RegistryData r) => Ok r
  | Some _ => Err (PersistenceError path)
  end.

(** Modelled from the spec: [LoadRepositoriesFile] of package repo is not
    under src/.  "parses the registry file; if the file does not exist,
    returns an empty Registry rather than an error". *)
Definition LoadRepositoriesFile (path : string) : M RepoFile := fun w =>
  (log (EvLoad path) w, parse_registry path (files w !! path)).

(** One step of a write. *)
Definition apply_op (op : fsop) (w : World) : World :=
  match op with
  | CreateTemp => log EvCreateTemp (set_temps (Partial :: temps w) w)
  | FillTemp c => log EvFillTemp (set_temps (c :: tail (temps w)) w)
  | Rename path perm =>
      match temps w with
      | [] => w
      | c :: rest =>
          log (EvRename path perm) (set_temps rest (set_files (<[path := c]> (files w)) w))
      end
  end.

Definition apply_ops (ops : list fsop) (w : World) : World :=
  fold_left (fun w op => apply_op op w) ops w.

(** Modelled from the spec: [WriteFile] of package repo is not under src/.
    "write-to-temp-then-rename is the required technique": a temporary
    file is created, filled with the serialised registry and renamed to
    [path]. *)
Definition WriteFile_ops (r : RepoFile) (path : string) (perm : Z) : list fsop :=
  [CreateTemp; FillTemp (RegistryData r); Rename path perm].

Definition WriteFile (env : Env) (r : RepoFile) (path : string) (perm : Z) : M unit :=
  fun w =>
  let ops := WriteFile_ops r path perm in
  match write_end env with
  | WriteCompletes => (apply_ops ops w, Ok tt)
  | WriteFails s => (apply_ops (firstn (steps_before s) ops) w, Err (PersistenceError path))
  | WriteInterrupted p => (apply_ops (firstn (steps_done p) ops) w, Crash)
  end.

(** ** The index fetcher (package repo) *)

Record ChartRepository := mkChartRepository { Config : Entry }.

(** [repo.NewChartRepository]: picks the getter of the scheme of the URL;
    whether there is one is the environment's. *)
Definition NewChartRepository (env : Env) (c : Entry) : M ChartRepository := fun w =>
  match getter_fault env c with
  | Some e => (w, Err e)
  | None => (w, Ok (mkChartRepository c))
  end.

(** Modelled from the spec: [DownloadIndexFile] of package repo is not
    under src/.  "fetches and validates a remote index, caching it
    locally; any failure returns a single opaque error": the index goes to
    the cache file of the entry, a failure leaves no file. *)
Definition DownloadIndexFile (env : Env) (r : ChartRepository) (cachePath : string) : M unit :=
  fun w =>
  let c := Config r in
  let w1 := set_files (during_fetch env (files w)) w in
  match remote_index env c with
  | inl e => (log (EvFetch (URL c) false) w1, Err e)
  | inr idx =>
      (log (EvStore (Cache c))
         (set_files (<[Cache c := IndexData idx]> (files w1))
            (log (EvFetch (URL c) true) w1)),
       Ok tt)
  end.

(** ** The file lock (github.com/gofrs/flock) *)

(** The lock is a library outside the repository.  Its polling is modelled
    as the library does it: an attempt at once, then one after each
    [delay] until the context is done; an attempt that takes the lock or
    fails ends the loop with its result, the end of the context ends it
    with the error of the context.  The state of the lock at each attempt
    is the environment's.  The handle the library opens on the locked path
    is not modelled. *)

(** How many attempts fit before the deadline: one at once and one after
    each [delay] that ends before [timeout]. *)
Definition polls_within (timeout delay : Z) : nat :=
  Z.to_nat ((timeout + delay - 1) / delay).

(** The polling loop of [TryLockContext], with [polls] attempts left at
    the time [t] since the call.  It gives whether the lock was taken, the
    error, and the time at which it returned. *)
Fixpoint poll (probe : Z -> lock_probe_result) (timeout delay : Z)
    (polls : nat) (t : Z) : bool * option error * Z :=
  match polls with
  | O => (false, Some LockTimeout, t)
  | S k =>
      match probe t with
      | LockFree => (true, None, t)
      | LockFault msg => (false, Some (LockAcquisitionError msg), t)
      | LockBusy =>
          match k with
          | O => (false, Some LockTimeout, timeout)
          | S _ => poll probe timeout delay k (t + delay)
          end
      end
  end.

Definition tryCtx (probe : Z -> lock_probe_result) (timeout delay : Z)
    : bool * option error * Z :=
  poll probe timeout delay (polls_within timeout delay) 0.

(** [fileLock.TryLockContext(ctx, delay)] where [ctx] ends after
    [timeout]: the pair the Go function returns is the value of the
    action. *)
Definition TryLockContext (env : Env) (path : string) (timeout delay : Z)
    : M (bool * option error) := fun w =>
  let w1 := log (EvTryLock path timeout delay)
              (set_files (during_wait env (files w)) w) in
  match tryCtx (lock_probe env) timeout delay with
  | (true, err, t) => (log (EvAcquired path) (set_held true (add_wait t w1)), Ok (true, err))
  | (false, err, t) => (add_wait t w1, Ok (false, err))
  end.

(** [fileLock.Unlock()] *)
Definition Unlock (path : string) (w : World) : World :=
  log (EvUnlock path) (set_held false w).

(** ** addRepository *)

Definition is_nil (err : option error) : bool :=
  match err with
  | None => true
  | Some _ => false
  end.

(** [addRepository] of cmd/helm/repo_add.go, statement by statement.  The
    getters of [getter.All(settings)] are the environment's
    ([getter_fault]); [defer cancel()] of the context of the lock has no
    effect on the world and is left out; [0644] is 420. *)
Definition addRepository (env : Env) (name url username password : string)
    (home : Home) (certFile keyFile caFile : string) (noUpdate : bool) : M unit :=
  f <- LoadRepositoriesFile (RepositoryFile home) ;;
  if noUpdate && Has f name then throw (ErrExists name) else
  let cif := CacheIndex home name in
  let c := mkEntry name cif url username password certFile keyFile caFile in
  r <- NewChartRepository env c ;;
  _ <- wrap_error (ErrInvalidRepo url) (DownloadIndexFile env r (CacheDir home)) ;;
  (* Lock the repository file *)
  res <- TryLockContext env (RepositoryFile home) (30 * Second) Second ;;
  let '(locked, err) := res in
  deferring (is_nil err && locked) (Unlock (RepositoryFile home))
    match err with
    | Some e => throw e
    | None =>
        (* Re-read the repositories file before updating it *)
        f <- LoadRepositoriesFile (RepositoryFile home) ;;
        let f := Update f c in
        WriteFile env f (RepositoryFile home) 420
    end.

(** ** What the disk holds along one invocation *)

(** The files once the index is in the cache: what the other processes
    made of [fs] during the fetch, and the cache file [cache]. *)
Definition disk_after_fetch (env : Env) (cache idx : string)
    (fs : gmap string content) : gmap string content :=
  <[cache := IndexData idx]> (during_fetch env fs).

(** The files when [TryLockContext] returns. *)
Definition disk_at_lock (env : Env) (cache idx : string)
    (fs : gmap string content) : gmap string content :=
  during_wait env (disk_after_fetch env cache idx fs).

(** An environment in which no other process touches the files. *)
Definition quiet (env : Env) : Prop :=
  (forall fs, during_fetch env fs = fs) /\ (forall fs, during_wait env fs = fs).

(** The invocation gets as far as fetching the index: the first load
    gives a registry, the duplicate check lets the name through and there
    is a getter for the URL. *)
Definition reaches_fetch (env : Env) (c : Entry) (reg : string) (noUpdate : bool)
    (fs : gmap string content) : bool :=
  match parse_registry reg (fs !! reg) with
  | Ok f0 => negb (noUpdate && Has f0 (Name c)) && is_nil (getter_fault env c)
  | _ => false
  end.

(** ** The ways an invocation ends *)

(** The events of the first [n] steps of a write. *)
Definition write_events (n : nat) (path : string) (perm : Z) : list event :=
  firstn n [EvCreateTemp; EvFillTemp; EvRename path perm].

(** The temporary files after the first [n] steps of the write of [r]. *)
Definition write_temps (n : nat) (r : RepoFile) : list content :=
  match n with
  | 0%nat => []
  | 1%nat => [Partial]
  | 2%nat => [RegistryData r]
  | _ => []
  end.

(** What the process did until it asked for the lock. *)
Definition trace_to_lock (reg cif url : string) : list event :=
  [EvLoad reg; EvFetch url true; EvStore cif; EvTryLock reg (30 * Second) Second].

(** The endings of [addRepository] for the entry [c], started on the
    files [fs]: the world it leaves and what it returns. *)
Inductive ends (env : Env) (reg cif url : string) (c : Entry) (noUpdate : bool)
    (fs : gmap string content) : World -> outcome unit -> Prop :=
| ends_load_error e :
    parse_registry reg (fs !! reg) = Err e ->
    ends env reg cif url c noUpdate fs (mkWorld fs [] false 0 [EvLoad reg]) (Err e)
| ends_duplicate f0 :
    parse_registry reg (fs !! reg) = Ok f0 ->
    noUpdate && Has f0 (Name c) = true ->
    ends env reg cif url c noUpdate fs
      (mkWorld fs [] false 0 [EvLoad reg]) (Err (ErrExists (Name c)))
| ends_getter_error f0 e :
    parse_registry reg (fs !! reg) = Ok f0 ->
    noUpdate && Has f0 (Name c) = false ->
    getter_fault env c = Some e ->
    ends env reg cif url c noUpdate fs (mkWorld fs [] false 0 [EvLoad reg]) (Err e)
| ends_fetch_error e :
    reaches_fetch env c reg noUpdate fs = true ->
    remote_index env c = inl e ->
    ends env reg cif url c noUpdate fs
      (mkWorld (during_fetch env fs) [] false 0 [EvLoad reg; EvFetch url false])
      (Err (ErrInvalidRepo url e))
| ends_not_locked idx e t :
    reaches_fetch env c reg noUpdate fs = true ->
    remote_index env c = inr idx ->
    tryCtx (lock_probe env) (30 * Second) Second = (false, Some e, t) ->
    ends env reg cif url c noUpdate fs
      (mkWorld (disk_at_lock env cif idx fs) [] false (0 + t)
         (trace_to_lock reg cif url))
      (Err e)
| ends_reload_error idx t e :
    reaches_fetch env c reg noUpdate fs = true ->
    remote_index env c = inr idx ->
    tryCtx (lock_probe env) (30 * Second) Second = (true, None, t) ->
    parse_registry reg (disk_at_lock env cif idx fs !! reg) = Err e ->
    ends env reg cif url c noUpdate fs
      (mkWorld (disk_at_lock env cif idx fs) [] false (0 + t)
         (trace_to_lock reg cif url ++ [EvAcquired reg; EvLoad reg; EvUnlock reg]))
      (Err e)
| ends_committed idx t f1 :
    reaches_fetch env c reg noUpdate fs = true ->
    remote_index env c = inr idx ->
    tryCtx (lock_probe env) (30 * Second) Second = (true, None, t) ->
    parse_registry reg (disk_at_lock env cif idx fs !! reg) = Ok f1 ->
    write_end env = WriteCompletes ->
    ends env reg cif url c noUpdate fs
      (mkWorld (<[reg := RegistryData (Update f1 c)]> (disk_at_lock env cif idx fs))
         [] false (0 + t)
         (trace_to_lock reg cif url
            ++ [EvAcquired reg; EvLoad reg] ++ write_events 3 reg 420 ++ [EvUnlock reg]))
      (Ok tt)
| ends_write_error idx t f1 s :
    reaches_fetch env c reg noUpdate fs = true ->
    remote_index env c = inr idx ->
    tryCtx (lock_probe env) (30 * Second) Second = (true, None, t) ->
    parse_registry reg (disk_at_lock env cif idx fs !! reg) = Ok f1 ->
    write_end env = WriteFails s ->
    ends env reg cif url c noUpdate fs
      (mkWorld (disk_at_lock env cif idx fs)
         (write_temps (steps_before s) (Update f1 c)) false (0 + t)
         (trace_to_lock reg cif url
            ++ [EvAcquired reg; EvLoad reg]
            ++ write_events (steps_before s) reg 420 ++ [EvUnlock reg]))
      (Err (PersistenceError reg))
| ends_interrupted idx t f1 p :
    reaches_fetch env c reg noUpdate fs = true ->
    remote_index env c = inr idx ->
    tryCtx (lock_probe env) (30 * Second) Second = (true, None, t) ->
    parse_registry reg (disk_at_lock env cif idx fs !! reg) = Ok f1 ->
    write_end env = WriteInterrupted p ->
    ends env reg cif url c noUpdate fs
      (mkWorld
         match p with
         | AfterRename =>
             <[reg := RegistryData (Update f1 c)]> (disk_at_lock env cif idx fs)
         | _ => disk_at_lock env cif idx fs
         end
         (write_temps (steps_done p) (Update f1 c)) true (0 + t)
         (trace_to_lock reg cif url
            ++ [EvAcquired reg; EvLoad reg] ++ write_events (steps_done p) reg 420))
      Crash.

(** ** Sample homes, disks and environments *)

Definition demo_home : Home :=
  mkHome "/h/repository/repositories.yaml" "/h/repository/cache"
    (fun name => "/h/repository/cache/" ++ name ++ "-index.yaml").

(** The entry the sample invocations register. *)
Definition demo_entry : Entry :=
  mkEntry "stable" (CacheIndex demo_home "stable") "https://charts.example.com"
    "" "" "" "" "".

(** An entry another process registers. *)
Definition other_entry : Entry :=
  mkEntry "incubator" (CacheIndex demo_home "incubator")
    "https://incubator.example.com" "" "" "" "" "".

(** An older entry of the name of [demo_entry]. *)
Definition stale_entry : Entry :=
  mkEntry "stable" (CacheIndex demo_home "stable") "https://old.example.com"
    "" "" "" "" "".

(** A disk whose registry has the older entry. *)
Definition demo_disk : gmap string content :=
  {[ RepositoryFile demo_home := RegistryData [stale_entry] ]}.

(** Everything works and nobody else is there. *)
Definition calm_env : Env :=
  mkEnv (fun _ => None) (fun _ => inr "index of stable") (fun fs => fs)
    (fun _ => LockFree) (fun fs => fs) WriteCompletes.

(** The URL does not serve an index. *)
Definition unreachable_env : Env :=
  mkEnv (fun _ => None) (fun _ => inl (FetchError "404 Not Found")) (fun fs => fs)
    (fun _ => LockFree) (fun fs => fs) WriteCompletes.

(** Another process keeps the lock. *)
Definition busy_env : Env :=
  mkEnv (fun _ => None) (fun _ => inr "index of stable") (fun fs => fs)
    (fun _ => LockBusy) (fun fs => fs) WriteCompletes.

(** Another process registers [other_entry] while the lock is awaited, and
    releases the lock after three seconds. *)
Definition racing_env : Env :=
  mkEnv (fun _ => None) (fun _ => inr "index of stable") (fun fs => fs)
    (fun t => if (t <? 3 * Second)%Z then LockBusy else LockFree)
    (fun fs => <[RepositoryFile demo_home := RegistryData [other_entry]]> fs)
    WriteCompletes.

(** The process dies when the temporary file is filled and not renamed. *)
Definition dying_env : Env :=
  mkEnv (fun _ => None) (fun _ => inr "index of stable") (fun fs => fs)
    (fun _ => LockFree) (fun fs => fs) (WriteInterrupted BeforeRename).

(** The renaming of the temporary file fails. *)
Definition failing_disk_env : Env :=
  mkEnv (fun _ => None) (fun _ => inr "index of stable") (fun fs => fs)
    (fun _ => LockFree) (fun fs => fs) (WriteFails AtRename).

(** The sample invocation. *)
Definition demo_call (env : Env) (noUpdate : bool) : M unit :=
  addRepository env "stable" "https://charts.example.com" "" "" demo_home
    "" "" "" noUpdate.

(** ** Disciplines of a trace *)

(** The events that change a named file. *)
Definition writes_to (path : string) (e : event) : bool :=
  match e with
  | EvStore p => String.eqb p path
  | EvRename p _ => String.eqb p path
  | _ => false
  end.

(** Every change of [path] happens while the lock is held; [locked] is
    whether it is held before the first event. *)
Fixpoint writes_locked (path : string) (locked : bool) (tr : list event) : bool :=
  match tr with
  | [] => true
  | EvAcquired _ :: tr' => writes_locked path true tr'
  | EvUnlock _ :: tr' => writes_locked path false tr'
  | e :: tr' => (negb (writes_to path e) || locked) && writes_locked path locked tr'
  end.

(** The network is used before the lock is asked for, and while the lock
    is held the process only loads and writes: [tried] is whether the lock
    was asked for, [locked] whether it is held. *)
Fixpoint lock_scoped (tried locked : bool) (tr : list event) : bool :=
  match tr with
  | [] => true
  | EvFetch _ _ :: tr' => negb tried && negb locked && lock_scoped tried locked tr'
  | EvStore _ :: tr' => negb tried && negb locked && lock_scoped tried locked tr'
  | EvTryLock _ _ _ :: tr' => negb locked && lock_scoped true locked tr'
  | EvAcquired _ :: tr' => tried && negb locked && lock_scoped tried true tr'
  | EvUnlock _ :: tr' => locked && lock_scoped tried false tr'
  | EvLoad _ :: tr' => lock_scoped tried locked tr'
  | EvCreateTemp :: tr' => locked && lock_scoped tried locked tr'
  | EvFillTemp :: tr' => locked && lock_scoped tried locked tr'
  | EvRename _ _ :: tr' => locked && lock_scoped tried locked tr'
  end.

(** ** The command: newRepoAddCmd, run, readPassword *)

(** [repoAddCmd], without its writer [out]: what is written to [out] is
    part of the [Session]. *)
Module Cmd.
Record repoAddCmd := mk {
  name : string;
  url : string;
  username : string;
  password : string;
  home : Home;
  noupdate : bool;
  certFile : string;
  keyFile : string;
  caFile : string
}.
End Cmd.

Abbreviation repoAddCmd := Cmd.repoAddCmd.

(** [a.password = password] *)
Definition set_password (password : string) (a : repoAddCmd) : repoAddCmd :=
  Cmd.mk (Cmd.name a) (Cmd.url a) (Cmd.username a) password (Cmd.home a)
    (Cmd.noupdate a) (Cmd.certFile a) (Cmd.keyFile a) (Cmd.caFile a).

(** The world and what the command has written to [a.out]. *)
Record Session := mkSession {
  world : World;
  out : string
}.

(** [fmt.Fprint(a.out, s)]; the error of the writer is dropped, as the
    source drops it. *)
Definition Fprint (s : string) (st : Session) : Session :=
  mkSession (world st) (out st ++ s).

(** The line feed of [Fprintln] and of the format of the confirmation. *)
Definition nl : string := String (Ascii.ascii_of_nat 10) EmptyString.

(** [readPassword]: what [terminal.ReadPassword] gives is [tty], an error
    or the bytes typed. *)
Definition readPassword (tty : error + string) : string * option error :=
  match tty with
  | inl err => ("", Some err)
  | inr password => (password, None)
  end.

(** The confirmation: [fmt.Fprintf(a.out, "%q has been added to your
    repositories\n", a.name)]. *)
Definition confirmation (quote : string -> string) (name : string) : string :=
  quote name ++ " has been added to your repositories" ++ nl.

(** The call of [addRepository] in [run], with the fields of the command. *)
Definition addRepository_of (env : Env) (a : repoAddCmd) : M unit :=
  addRepository env (Cmd.name a) (Cmd.url a) (Cmd.username a) (Cmd.password a)
    (Cmd.home a) (Cmd.certFile a) (Cmd.keyFile a) (Cmd.caFile a) (Cmd.noupdate a).

(** [(a *repoAddCmd) run()]: the command after the call (its password may
    have been set), the session and what is returned. *)
Definition run (env : Env) (quote : string -> string) (tty : error + string)
    (a : repoAddCmd) (st : Session) : repoAddCmd * Session * outcome unit :=
  let asked :=
    if negb (String.eqb (Cmd.username a) "") && String.eqb (Cmd.password a) "" then
      let st := Fprint "Password:" st in
      let '(password, err) := readPassword tty in
      let st := Fprint nl st in
      match err with
      | Some e => (a, st, Err e)
      | None => (set_password password a, st, Ok tt)
      end
    else (a, st, Ok tt) in
  match asked with
  | (a, st, Ok _) =>
      match addRepository_of env a (world st) with
      | (w, Ok _) =>
          (a, Fprint (confirmation quote (Cmd.name a)) (mkSession w (out st)), Ok tt)
      | (w, Err e) => (a, mkSession w (out st), Err e)
      | (w, Crash) => (a, mkSession w (out st), Crash)
      end
  | stopped => stopped
  end.

(** The function [RunE] of the command that [newRepoAddCmd] builds, on the
    command [add] as the flags left it.  [checkArgsLength] is of another
    file of the package and [settings_home] is [settings.Home]; an index
    out of the range of [args] ends the process. *)
Definition RunE (env : Env) (quote : string -> string) (tty : error + string)
    (checkArgsLength : nat -> list string -> option error) (settings_home : Home)
    (add : repoAddCmd) (args : list string) (st : Session)
    : repoAddCmd * Session * outcome unit :=
  match checkArgsLength (length args)
          ["name for the chart repository"; "the url of the chart repository"] with
  | Some err => (add, st, Err err)
  | None =>
      match args !! 0%nat, args !! 1%nat with
      | Some arg0, Some arg1 =>
          run env quote tty
            (Cmd.mk arg0 arg1 (Cmd.username add) (Cmd.password add) settings_home
               (Cmd.noupdate add) (Cmd.certFile add) (Cmd.keyFile add) (Cmd.caFile add))
            st
      | _, _ => (add, st, Crash)
      end
  end.

(** A sample command: a user name and no password. *)
Definition demo_cmd : repoAddCmd :=
  Cmd.mk "stable" "https://charts.example.com" "alice" "" demo_home false "" "" "".

(** A sample command without credentials. *)
Definition anonymous_cmd : repoAddCmd :=
  Cmd.mk "stable" "https://charts.example.com" "" "" demo_home false "" "" "".

(** A quoting for the samples: the string between two apostrophes. *)
Definition demo_quote (s : string) : string := "'" ++ s ++ "'".

(** A check of the number of arguments for the samples. *)
Definition demo_check (n : nat) (required : list string) : option error :=
  if Nat.eqb n (length required) then None else Some (GetterError "wrong number of arguments").

(** Another process registers an entry of the name of [demo_entry] while
    the lock is awaited. *)
Definition same_name_race_env : Env :=
  mkEnv (fun _ => None) (fun _ => inr "index of stable") (fun fs => fs)
    (fun _ => LockFree)
    (fun fs => <[RepositoryFile demo_home := RegistryData [stale_entry]]> fs)
    WriteCompletes.

(** The lock is broken. *)
Definition broken_lock_env : Env :=
  mkEnv (fun _ => None) (fun _ => inr "index of stable") (fun fs => fs)
    (fun t => if (t <? 2 * Second)%Z then LockBusy else LockFault "bad file descriptor")
    (fun fs => fs) WriteCompletes.

(** There is no getter for the URL. *)
Definition no_getter_env : Env :=
  mkEnv (fun _ => Some (GetterError "no protocol handler")) (fun _ => inr "index of stable")
    (fun fs => fs) (fun _ => LockFree) (fun fs => fs) WriteCompletes.

(** ** The polling loop *)

Arguments Z.mul : simpl never.
Arguments Z.add : simpl never.

Lemma poll_sound probe timeout delay k t b err t' :
  poll probe timeout delay k t = (b, err, t') ->
  (b = true /\ err = None) \/ (b = false /\ exists e, err = Some e).
Proof.
  revert t. induction k as [|k IH]; intros t; simpl.
  - intros [= <- <- <-]. right. eauto.
  - destruct (probe t).
    + intros [= <- <- <-]. by left.
    + destruct k.
      * intros [= <- <- <-]. right. eauto.
      * apply IH.
    + intros [= <- <- <-]. right. eauto.
Qed.

Lemma tryCtx_sound probe timeout delay b err t' :
  tryCtx probe timeout delay = (b, err, t') ->
  (b = true /\ err = None) \/ (b = false /\ exists e, err = Some e).
Proof. apply poll_sound. Qed.

Lemma poll_errors probe timeout delay k t b e t' :
  poll probe timeout delay k t = (b, Some e, t') ->
  e = LockTimeout \/ exists msg, e = LockAcquisitionError msg.
Proof.
  revert t. induction k as [|k IH]; intros t; simpl.
  - intros [= <- <- <-]. by left.
  - destruct (probe t).
    + done.
    + destruct k.
      * intros [= <- <- <-]. by left.
      * apply IH.
    + intros [= <- <- <-]. right. eauto.
Qed.

(** The loop returns between the time it started and the deadline, when
    its last attempt is before the deadline. *)
Lemma poll_elapsed probe timeout delay k t b err t' :
  0 <= delay -> t + Z.of_nat (Nat.pred k) * delay <= timeout ->
  poll probe timeout delay k t = (b, err, t') ->
  t <= t' <= timeout.
Proof.
  intros Hd. revert t. induction k as [|k IH]; intros t Hk; simpl in *.
  - intros [= <- <- <-]. lia.
  - destruct (probe t).
    + intros [= <- <- <-]. nia.
    + destruct k as [|k'].
      * intros [= <- <- <-]. lia.
      * intros H. apply IH in H; [nia|]. simpl in *. nia.
    + intros [= <- <- <-]. nia.
Qed.

(** A lock that is busy at every attempt is not taken: the loop gives up
    at the deadline. *)
Lemma poll_all_busy probe timeout delay k t :
  (forall i : nat, (i <= k)%nat -> probe (t + Z.of_nat i * delay) = LockBusy) ->
  poll probe timeout delay (S k) t = (false, Some LockTimeout, timeout).
Proof.
  revert t. induction k as [|k IH]; intros t Hb.
  - simpl. specialize (Hb 0%nat ltac:(lia)). replace (t + Z.of_nat 0 * delay) with t in Hb by lia.
    by rewrite Hb.
  - cbn [poll]. pose proof (Hb 0%nat ltac:(lia)) as H0.
    replace (t + Z.of_nat 0 * delay) with t in H0 by lia. rewrite H0.
    apply IH. intros i Hi. specialize (Hb (S i) ltac:(lia)).
    rewrite <- Hb. f_equal. lia.
Qed.

Lemma polls_30s : polls_within (30 * Second) Second = 30%nat.
Proof. reflexivity. Qed.

(** The waiting of [addRepository]: thirty attempts, one a second. *)
Lemma tryCtx_30s_busy probe :
  (forall t, 0 <= t < 30 * Second -> probe t = LockBusy) ->
  tryCtx probe (30 * Second) Second = (false, Some LockTimeout, 30 * Second).
Proof.
  intros Hb. unfold tryCtx. rewrite polls_30s. apply poll_all_busy.
  intros i Hi. apply Hb. unfold Second. lia.
Qed.

Lemma tryCtx_30s_elapsed probe b err t :
  tryCtx probe (30 * Second) Second = (b, err, t) -> 0 <= t <= 30 * Second.
Proof.
  unfold tryCtx. rewrite polls_30s. apply poll_elapsed; unfold Second; simpl; lia.
Qed.

(** ** The registry operations *)

Lemma Has_elem_of r name : Has r name = true <-> name ∈ names r.
Proof.
  unfold Has, names. rewrite existsb_exists, list_elem_of_fmap.
  split.
  - intros (e & Hin & He). apply String.eqb_eq in He.
    exists e. split; [done|]. by apply list_elem_of_In.
  - intros (e & -> & Hin). exists e. split; [by apply list_elem_of_In|].
    apply String.eqb_refl.
Qed.

Lemma Has_false_not_elem r name : Has r name = false <-> name ∉ names r.
Proof.
  rewrite <- Has_elem_of. destruct (Has r name); split; congruence.
Qed.

Lemma Update_names_has r e :
  Has r (Name e) = true -> names (Update r e) = names r.
Proof.
  induction r as [|x r IH]; simpl; [done|].
  destruct (String.eqb_spec (Name x) (Name e)) as [Heq|Hne]; simpl.
  - intros _. by rewrite Heq.
  - intros H. unfold names in *. simpl. by rewrite IH.
Qed.

Lemma Update_names_new r e :
  Has r (Name e) = false -> Update r e = (r ++ [e])%list.
Proof.
  induction r as [|x r IH]; simpl; [done|].
  destruct (String.eqb_spec (Name x) (Name e)) as [Heq|Hne]; simpl; [done|].
  intros H. by rewrite IH.
Qed.

Lemma Update_elem r e : e ∈ Update r e.
Proof.
  induction r as [|x r IH]; simpl; [by apply list_elem_of_here|].
  destruct (String.eqb (Name x) (Name e)).
  - apply list_elem_of_here.
  - by apply list_elem_of_further.
Qed.

(** [Update] keeps the invariant of the data model. *)
Lemma Update_wf r e : wf_registry r -> wf_registry (Update r e).
Proof.
  unfold wf_registry. intros Hnd.
  destruct (Has r (Name e)) eqn:Hh.
  - by rewrite Update_names_has.
  - rewrite Update_names_new by done. unfold names. rewrite map_app. simpl.
    apply NoDup_app. split; [done|]. split.
    + intros n Hn Hin. apply list_elem_of_singleton in Hin as ->.
      by apply Has_false_not_elem in Hh.
    + apply NoDup_singleton.
Qed.

Lemma entries_named_absent name r :
  name ∉ names r -> entries_named name r = [].
Proof.
  unfold entries_named, names. induction r as [|x r IH]; [done|].
  rewrite fmap_cons, not_elem_of_cons. intros [Hx Hr].
  rewrite filter_cons_False by congruence. by apply IH.
Qed.

(** In a registry that has the invariant, the entry just merged is the
    only one of its name. *)
Lemma Update_entries_named r e :
  wf_registry r -> entries_named (Name e) (Update r e) = [e].
Proof.
  unfold wf_registry, names. induction r as [|x r IH]; simpl.
  - intros _. unfold entries_named. by rewrite filter_cons_True.
  - rewrite NoDup_cons. intros [Hx Hr].
    destruct (String.eqb_spec (Name x) (Name e)) as [Heq|Hne].
    + unfold entries_named. rewrite filter_cons_True by done.
      f_equal. apply entries_named_absent. by rewrite <- Heq.
    + unfold entries_named. rewrite filter_cons_False by done. by apply IH.
Qed.

(** The entries of the other names are kept, in their order. *)
Lemma Update_others r e :
  filter (fun x => Name x <> Name e) (Update r e)
  = filter (fun x => Name x <> Name e) r.
Proof.
  induction r as [|x r IH]; simpl.
  - by rewrite filter_cons_False by (intros H; by apply H).
  - destruct (String.eqb_spec (Name x) (Name e)) as [Heq|Hne].
    + rewrite !filter_cons_False; [done| |]; intros H; by apply H.
    + rewrite !filter_cons_True by done. by rewrite IH.
Qed.

(** Merging the same entry again changes nothing. *)
Lemma Update_idem r e : Update (Update r e) e = Update r e.
Proof.
  induction r as [|x r IH]; simpl.
  - by rewrite String.eqb_refl.
  - destruct (String.eqb (Name x) (Name e)) eqn:Hx; simpl.
    + by rewrite String.eqb_refl.
    + by rewrite Hx, IH.
Qed.

(** ** One invocation *)

Lemma parse_registry_returns (path : string) (oc : option content) :
  parse_registry path oc <> Crash.
Proof. by destruct oc as [[]|]. Qed.

Lemma string_app_assoc (s1 s2 s3 : string) : (s1 ++ s2) ++ s3 = s1 ++ (s2 ++ s3).
Proof.
  induction s1 as [|a s1 IH]; [done|].
  change (String a ((s1 ++ s2) ++ s3) = String a (s1 ++ (s2 ++ s3))).
  by rewrite IH.
Qed.

Ltac bounded_wait :=
  split;
  [ unfold Second in *; lia
  | let H := fresh in
    intros ? ? ? H; apply list_elem_of_In in H; simpl in H; intuition congruence ].

Ltac unfold_run :=
  unfold addRepository, bind, LoadRepositoriesFile, NewChartRepository,
    wrap_error, DownloadIndexFile, TryLockContext, deferring, WriteFile, throw.

Section Invocation.
Variable env : Env.
Variables name url username password : string.
Variable home : Home.
Variables certFile keyFile caFile : string.

Local Abbreviation reg := (RepositoryFile home).
Local Abbreviation cif := (CacheIndex home name).
Local Abbreviation c := (mkEntry name cif url username password certFile keyFile caFile).
Local Abbreviation call := (addRepository env name url username password home
                          certFile keyFile caFile).

(** C6: with [noUpdate], a name the registry already has is refused with
    the duplicate-name error, before anything is fetched, locked or
    written: the files are what they were. *)
Theorem duplicate_name_rejected (fs : gmap string content) (f0 : RepoFile) :
  fs !! reg = Some (RegistryData f0) ->
  Has f0 name = true ->
  exists w',
    call true (start fs) = (w', Err (ErrExists name))
    /\ files w' = fs
    /\ trace w' = [EvLoad reg].
Proof.
  intros Hfs Hhas. eexists. unfold_run. simpl. rewrite Hfs. simpl.
  rewrite Hhas. simpl. done.
Qed.

(** What a successful invocation leaves: the registry read under the
    lock with the entry merged, on top of the files as they were when the
    lock was taken. *)
Lemma success_inv (noUpdate : bool) (w0 w' : World) :
  call noUpdate w0 = (w', Ok tt) ->
  exists idx f1,
    remote_index env c = inr idx
    /\ parse_registry reg (disk_at_lock env cif idx (files w0) !! reg) = Ok f1
    /\ files w' = <[reg := RegistryData (Update f1 c)]> (disk_at_lock env cif idx (files w0))
    /\ temps w' = temps w0.
Proof.
  unfold_run. simpl.
  destruct (parse_registry reg (files w0 !! reg)) as [f0| |]; simpl; [|done..].
  destruct (noUpdate && Has f0 name); simpl; [done|].
  destruct (getter_fault env c); simpl; [done|].
  destruct (remote_index env c) as [e|idx]; simpl; [done|].
  destruct (tryCtx _ _ _) as [[b err] t] eqn:Hl.
  apply tryCtx_sound in Hl as [[-> ->]|[-> [e ->]]]; simpl; [|done].
  destruct (parse_registry _ _) as [f1| |] eqn:Hp; simpl; [|done..].
  destruct (write_end env) as [|s|k]; simpl; [|by destruct s|done].
  intros [= <-]. exists idx, f1. simpl. done.
Qed.

(** The world when the lock has been taken after [t] nanoseconds. *)
Local Abbreviation w_locked fs idx t :=
  (mkWorld (disk_at_lock env cif idx fs) [] true (0 + t)
     [EvLoad reg; EvFetch url true; EvStore cif;
      EvTryLock reg (30 * Second) Second; EvAcquired reg]).

(** An invocation that gets the index and then the lock goes on with the
    critical section, the unlocking deferred. *)
Lemma run_locked (fs : gmap string content) (noUpdate : bool) (idx : string) (t : Z) :
  reaches_fetch env c reg noUpdate fs = true ->
  remote_index env c = inr idx ->
  tryCtx (lock_probe env) (30 * Second) Second = (true, None, t) ->
  call noUpdate (start fs)
  = deferring true (Unlock reg)
      (f <- LoadRepositoriesFile reg ;; WriteFile env (Update f c) reg 420)
      (w_locked fs idx t).
Proof.
  unfold reaches_fetch. intros Hr Hf Hl.
  unfold addRepository, bind at 1 2 3 4, LoadRepositoriesFile at 1, NewChartRepository,
    wrap_error, DownloadIndexFile, TryLockContext, throw. simpl.
  destruct (parse_registry reg (fs !! reg)) as [f0| |]; simpl; [|done..].
  apply andb_true_iff in Hr as [Hdup Hg].
  apply negb_true_iff in Hdup. simpl in Hdup. rewrite Hdup. simpl.
  destruct (getter_fault env c); simpl; [done|].
  rewrite Hf. simpl. rewrite Hl. simpl. done.
Qed.

(** An invocation that gets the index and not the lock returns the error
    of the lock, with the files as they were when the waiting ended. *)
Lemma run_not_locked (fs : gmap string content) (noUpdate : bool) (idx : string)
    (e : error) (t : Z) :
  reaches_fetch env c reg noUpdate fs = true ->
  remote_index env c = inr idx ->
  tryCtx (lock_probe env) (30 * Second) Second = (false, Some e, t) ->
  call noUpdate (start fs)
  = (mkWorld (disk_at_lock env cif idx fs) [] false (0 + t)
       [EvLoad reg; EvFetch url true; EvStore cif; EvTryLock reg (30 * Second) Second],
     Err e).
Proof.
  unfold reaches_fetch. intros Hr Hf Hl. unfold_run. simpl.
  destruct (parse_registry reg (fs !! reg)) as [f0| |]; simpl; [|done..].
  apply andb_true_iff in Hr as [Hdup Hg].
  apply negb_true_iff in Hdup. simpl in Hdup. rewrite Hdup. simpl.
  destruct (getter_fault env c); simpl; [done|].
  rewrite Hf. simpl. rewrite Hl. simpl. done.
Qed.

(** Every invocation ends in one of the ways of [ends]. *)
Lemma run_ends (fs : gmap string content) (noUpdate : bool) :
  exists w' r,
    call noUpdate (start fs) = (w', r)
    /\ ends env reg cif url c noUpdate fs w' r.
Proof.
  destruct (parse_registry reg (fs !! reg)) as [f0|e|] eqn:Hp0;
    [| |by apply parse_registry_returns in Hp0].
  2: { eexists _, _. split; [|by apply ends_load_error].
       unfold_run. simpl. by rewrite Hp0. }
  destruct (noUpdate && Has f0 name) eqn:Hdup.
  { eexists _, _. split; [|by eapply (ends_duplicate _ _ _ _ c)].
    unfold_run. simpl. rewrite Hp0. simpl. by rewrite Hdup. }
  destruct (getter_fault env c) as [e|] eqn:Hg.
  { eexists _, _. split; [|by eapply ends_getter_error].
    unfold_run. simpl. rewrite Hp0. simpl. rewrite Hdup. simpl. by rewrite Hg. }
  assert (reaches_fetch env c reg noUpdate fs = true) as Hr.
  { unfold reaches_fetch. rewrite Hp0, Hg. simpl. by rewrite Hdup. }
  destruct (remote_index env c) as [e|idx] eqn:Hf.
  { eexists _, _. split; [|by eapply ends_fetch_error].
    unfold_run. simpl. rewrite Hp0. simpl. rewrite Hdup. simpl. rewrite Hg. simpl.
    by rewrite Hf. }
  destruct (tryCtx (lock_probe env) (30 * Second) Second) as [[b err] t] eqn:Hl.
  pose proof Hl as Hs. apply tryCtx_sound in Hs as [[-> ->]|[-> [e ->]]].
  2: { eexists _, _. split; [by apply (run_not_locked _ _ _ _ _ Hr Hf Hl)|].
       by eapply ends_not_locked. }
  rewrite (run_locked _ _ _ _ Hr Hf Hl).
  unfold deferring, bind, LoadRepositoriesFile, WriteFile. simpl.
  destruct (parse_registry reg (disk_at_lock env cif idx fs !! reg))
    as [f1|e|] eqn:Hp1; [| |by apply parse_registry_returns in Hp1].
  2: { eexists _, _. split; [done|]. by eapply ends_reload_error. }
  destruct (write_end env) as [|s|p] eqn:Hw.
  - eexists _, _. split; [done|]. by eapply ends_committed.
  - destruct s; (eexists _, _; split; [done|]);
      by eapply (ends_write_error _ _ _ _ _ _ _ _ _ _ _ Hr Hf Hl Hp1 Hw).
  - destruct p; (eexists _, _; split; [done|]);
      by eapply (ends_interrupted _ _ _ _ _ _ _ _ _ _ _ Hr Hf Hl Hp1 Hw).
Qed.

(** C1: once the lock is taken the registry is read again; the entry is
    merged into that registry, the one the file holds at that moment, and
    the result is what the file holds in the end.  The registry of the
    first load does not appear in what is written. *)
Theorem reload_merge_write (fs : gmap string content) (noUpdate : bool)
    (idx : string) (t : Z) (f1 : RepoFile) :
  reaches_fetch env c reg noUpdate fs = true ->
  remote_index env c = inr idx ->
  tryCtx (lock_probe env) (30 * Second) Second = (true, None, t) ->
  parse_registry reg (disk_at_lock env cif idx fs !! reg) = Ok f1 ->
  write_end env = WriteCompletes ->
  exists w',
    call noUpdate (start fs) = (w', Ok tt)
    /\ files w' = <[reg := RegistryData (Update f1 c)]> (disk_at_lock env cif idx fs)
    /\ files w' !! reg = Some (RegistryData (Update f1 c))
    /\ trace w' = [EvLoad reg; EvFetch url true; EvStore cif;
                   EvTryLock reg (30 * Second) Second; EvAcquired reg;
                   EvLoad reg; EvCreateTemp; EvFillTemp; EvRename reg 420;
                   EvUnlock reg]
    /\ held w' = false.
Proof.
  intros Hr Hf Hl Hp Hw. rewrite (run_locked _ _ _ _ Hr Hf Hl).
  unfold deferring, bind, LoadRepositoriesFile, WriteFile. simpl.
  rewrite Hp, Hw. simpl. eexists. split; [done|]. simpl.
  by rewrite lookup_insert_eq.
Qed.

(** C2: every change of the registry file happens while the lock is
    held, and an invocation that did not take the lock returns an error
    without any change of the registry file. *)
Theorem write_only_under_lock (fs : gmap string content) (noUpdate : bool)
    (w' : World) (r : outcome unit) :
  cif <> reg ->
  call noUpdate (start fs) = (w', r) ->
  writes_locked reg false (trace w') = true
  /\ (fst (fst (tryCtx (lock_probe env) (30 * Second) Second)) = false ->
      (exists e, r = Err e)
      /\ forallb (fun ev => negb (writes_to reg ev)) (trace w') = true
      /\ held w' = false).
Proof.
  intros Hne Hrun. apply String.eqb_neq in Hne.
  destruct (run_ends fs noUpdate) as (w & r0 & Hrun' & Hends).
  rewrite Hrun in Hrun'. injection Hrun' as <- <-.
  destruct Hends as [e Hp|f0 Hp Hd|f0 e Hp Hd Hg|e Hr Hf|idx e t Hr Hf Hl
                    |idx t e Hr Hf Hl Hp|idx t f1 Hr Hf Hl Hp Hw
                    |idx t f1 s Hr Hf Hl Hp Hw|idx t f1 p Hr Hf Hl Hp Hw];
    try destruct s; try destruct p; cbn;
    rewrite ?Hne, ?String.eqb_refl; cbn;
    (split; [done|]);
    try (rewrite Hl; by intros [=]);
    (intros _; split; [by eexists | by split]).
Qed.

(** C3: the lock is awaited for thirty seconds at most, an attempt each
    second; when it is busy all that time the invocation returns the
    error of the deadline, having taken no lock and written nothing
    since the index: the files are the ones the waiting ended on. *)
Theorem lock_timeout_bounded (fs : gmap string content) (noUpdate : bool) :
  (forall w' r,
     call noUpdate (start fs) = (w', r) ->
     0 <= waited w' <= 30 * Second
     /\ forall p timeout delay,
          EvTryLock p timeout delay ∈ trace w' ->
          p = reg /\ timeout = 30 * Second /\ delay = Second)
  /\ forall idx,
       reaches_fetch env c reg noUpdate fs = true ->
       remote_index env c = inr idx ->
       (forall t, 0 <= t < 30 * Second -> lock_probe env t = LockBusy) ->
       exists w',
         call noUpdate (start fs) = (w', Err LockTimeout)
         /\ files w' = disk_at_lock env cif idx fs
         /\ waited w' = 30 * Second
         /\ held w' = false
         /\ trace w' = [EvLoad reg; EvFetch url true; EvStore cif;
                        EvTryLock reg (30 * Second) Second].
Proof.
  split.
  - intros w' r Hrun.
    destruct (run_ends fs noUpdate) as (w & r0 & Hrun' & Hends).
    rewrite Hrun in Hrun'. injection Hrun' as <- <-.
    destruct Hends as [e Hp|f0 Hp Hd|f0 e Hp Hd Hg|e Hr Hf|idx e t Hr Hf Hl
                      |idx t e Hr Hf Hl Hp|idx t f1 Hr Hf Hl Hp Hw
                      |idx t f1 s Hr Hf Hl Hp Hw|idx t f1 p Hr Hf Hl Hp Hw];
      try destruct s; try destruct p;
      try (pose proof (tryCtx_30s_elapsed _ _ _ _ Hl));
      cbn; bounded_wait.
  - intros idx Hr Hf Hb. apply tryCtx_30s_busy in Hb.
    rewrite (run_not_locked _ _ _ _ _ Hr Hf Hb). eexists. split; [done|].
    simpl. by repeat split.
Qed.

(** C4: when the fetch of the index fails, the invocation ends with the
    error that says the URL is not a valid chart repository or cannot be
    reached, and it has written nothing: the files are the ones the other
    processes left. *)
Theorem fetch_failure_aborts (fs : gmap string content) (noUpdate : bool)
    (cause : error) :
  reaches_fetch env c reg noUpdate fs = true ->
  remote_index env c = inl cause ->
  exists w',
    call noUpdate (start fs) = (w', Err (ErrInvalidRepo url cause))
    /\ files w' = during_fetch env fs
    /\ trace w' = [EvLoad reg; EvFetch url false]
    /\ held w' = false
    /\ forall quote text, exists pre post,
         Error quote text (ErrInvalidRepo url cause)
         = pre ++ "is not a valid chart repository or cannot be reached" ++ post.
Proof.
  unfold reaches_fetch. intros Hr Hf. eexists. unfold_run. simpl.
  destruct (parse_registry reg (fs !! reg)) as [f0| |]; simpl; [|done..].
  apply andb_true_iff in Hr as [Hdup Hg].
  apply negb_true_iff in Hdup. simpl in Hdup. rewrite Hdup. simpl.
  destruct (getter_fault env c); simpl; [done|].
  rewrite Hf. simpl. repeat split.
  intros quote text.
  exists ("Looks like " ++ quote url ++ " "), (": " ++ Error quote text cause).
  cbn [Error]. rewrite !string_app_assoc. by do 2 f_equal.
Qed.

(** C5: a write that is cut short leaves the registry file whole: as
    long as the temporary file has not been renamed the files are the
    ones the lock was taken on, after the renaming the registry file holds
    the whole new registry; in both cases it still loads. *)
Theorem interrupted_write_atomic (fs : gmap string content) (noUpdate : bool)
    (idx : string) (t : Z) (f1 : RepoFile) (p : crash_point) :
  reaches_fetch env c reg noUpdate fs = true ->
  remote_index env c = inr idx ->
  tryCtx (lock_probe env) (30 * Second) Second = (true, None, t) ->
  parse_registry reg (disk_at_lock env cif idx fs !! reg) = Ok f1 ->
  write_end env = WriteInterrupted p ->
  exists w',
    call noUpdate (start fs) = (w', Crash)
    /\ files w' = match p with
                  | AfterRename =>
                      <[reg := RegistryData (Update f1 c)]> (disk_at_lock env cif idx fs)
                  | _ => disk_at_lock env cif idx fs
                  end
    /\ parse_registry reg (files w' !! reg)
       = Ok match p with
            | AfterRename => Update f1 c
            | _ => f1
            end.
Proof.
  intros Hr Hf Hl Hp Hw. rewrite (run_locked _ _ _ _ Hr Hf Hl).
  unfold deferring, bind, LoadRepositoriesFile, WriteFile. simpl.
  rewrite Hp, Hw. simpl.
  destruct p; simpl;
    (eexists; split; [done|]; simpl; split; [done|]);
    by rewrite ?lookup_insert_eq.
Qed.

(** C7: loading a file that does not exist gives the empty registry, and
    on a disk without a registry file a successful invocation creates
    the file with the new entry alone. *)
Theorem first_run (fs : gmap string content) (noUpdate : bool)
    (idx : string) (t : Z) :
  (forall path w, files w !! path = None ->
     snd (LoadRepositoriesFile path w) = Ok [])
  /\ (quiet env -> cif <> reg -> fs !! reg = None ->
      getter_fault env c = None ->
      remote_index env c = inr idx ->
      tryCtx (lock_probe env) (30 * Second) Second = (true, None, t) ->
      write_end env = WriteCompletes ->
      exists w',
        call noUpdate (start fs) = (w', Ok tt)
        /\ files w' !! reg = Some (RegistryData [c])
        /\ files w' = <[reg := RegistryData [c]]> (<[cif := IndexData idx]> fs)).
Proof.
  split.
  - intros path w Hnone. unfold LoadRepositoriesFile. simpl. by rewrite Hnone.
  - intros [Hq1 Hq2] Hne Hnone Hg Hf Hl Hw.
    assert (disk_at_lock env cif idx fs = <[cif := IndexData idx]> fs) as Hd.
    { unfold disk_at_lock, disk_after_fetch. by rewrite Hq2, Hq1. }
    assert (reaches_fetch env c reg noUpdate fs = true) as Hr.
    { unfold reaches_fetch. rewrite Hnone, Hg. simpl. by rewrite andb_false_r. }
    assert (parse_registry reg (disk_at_lock env cif idx fs !! reg) = Ok []) as Hp.
    { rewrite Hd, lookup_insert_ne, Hnone by done. done. }
    rewrite (run_locked _ _ _ _ Hr Hf Hl).
    unfold deferring, bind, LoadRepositoriesFile, WriteFile. simpl.
    rewrite Hp, Hw. simpl. eexists. split; [done|]. simpl.
    rewrite Hd. by rewrite lookup_insert_eq.
Qed.

(** C10: when the index was fetched and the invocation fails later (at
    the lock, at the second load or at the write) the index stays in the
    cache: the files are the ones the lock was awaited on, the cache file
    among them and the registry file as it was. *)
Theorem cache_survives_failure (fs : gmap string content) (noUpdate : bool)
    (idx : string) (w' : World) (e : error) :
  reaches_fetch env c reg noUpdate fs = true ->
  remote_index env c = inr idx ->
  (forall m, during_wait env m !! cif = m !! cif) ->
  call noUpdate (start fs) = (w', Err e) ->
  files w' !! cif = Some (IndexData idx)
  /\ files w' = disk_at_lock env cif idx fs
  /\ (e = LockTimeout \/ (exists msg, e = LockAcquisitionError msg)
      \/ e = PersistenceError reg).
Proof.
  intros Hr Hf Hkeep.
  assert (disk_at_lock env cif idx fs !! cif = Some (IndexData idx)) as Hc.
  { unfold disk_at_lock, disk_after_fetch. by rewrite Hkeep, lookup_insert_eq. }
  destruct (tryCtx (lock_probe env) (30 * Second) Second) as [[b err] t] eqn:Hl.
  pose proof Hl as Hs. apply tryCtx_sound in Hs as [[-> ->]|[-> [e' ->]]].
  - rewrite (run_locked _ _ _ _ Hr Hf Hl).
    unfold deferring, bind, LoadRepositoriesFile, WriteFile. simpl.
    destruct (parse_registry _ _) as [f1| |] eqn:Hp; simpl.
    + destruct (write_end env) as [|s|k]; simpl; [done| |done].
      intros [= <- <-]. destruct s; simpl; rewrite ?Hc; auto.
    + intros [= <- <-]. simpl. rewrite Hc. split; [done|]. split; [done|].
      right. right. unfold parse_registry in Hp.
      repeat case_match; by simplify_eq.
    + done.
  - rewrite (run_not_locked _ _ _ _ _ Hr Hf Hl). intros [= <- <-]. simpl.
    rewrite Hc. split; [done|]. split; [done|].
    apply poll_errors in Hl. destruct Hl as [->|[msg ->]]; eauto.
Qed.

(** C8: the index is fetched before the lock is asked for, and between
    taking the lock and releasing it the process only loads and writes
    the registry; a process that returns has released the lock. *)
Theorem fetch_outside_lock (fs : gmap string content) (noUpdate : bool)
    (w' : World) (r : outcome unit) :
  call noUpdate (start fs) = (w', r) ->
  lock_scoped false false (trace w') = true
  /\ (r <> Crash -> held w' = false).
Proof.
  intros Hrun.
  destruct (run_ends fs noUpdate) as (w & r0 & Hrun' & Hends).
  rewrite Hrun in Hrun'. injection Hrun' as <- <-.
  destruct Hends as [e Hp|f0 Hp Hd|f0 e Hp Hd Hg|e Hr Hf|idx e t Hr Hf Hl
                    |idx t e Hr Hf Hl Hp|idx t f1 Hr Hf Hl Hp Hw
                    |idx t f1 s Hr Hf Hl Hp Hw|idx t f1 p Hr Hf Hl Hp Hw];
    try destruct s; try destruct p; cbn; done.
Qed.

End Invocation.

(** ** Two invocations in a row *)

(** C9: two invocations for the same name, one after the other and with
    nobody else at work, leave one entry of that name, the entry of the
    second invocation; with the same arguments the second invocation
    leaves the registry the first one wrote. *)
Theorem add_twice_one_entry (env1 env2 : Env)
    (name url username password : string) (home : Home)
    (certFile keyFile caFile : string)
    (fs : gmap string content) (f0 : RepoFile) (w1 w2 : World) :
  let c := mkEntry name (CacheIndex home name) url username password
             certFile keyFile caFile in
  quiet env1 -> quiet env2 ->
  CacheIndex home name <> RepositoryFile home ->
  parse_registry (RepositoryFile home) (fs !! RepositoryFile home) = Ok f0 ->
  wf_registry f0 ->
  addRepository env1 name url username password home certFile keyFile caFile
    false (start fs) = (w1, Ok tt) ->
  addRepository env2 name url username password home certFile keyFile caFile
    false (fresh w1) = (w2, Ok tt) ->
  files w1 !! RepositoryFile home = Some (RegistryData (Update f0 c))
  /\ files w2 !! RepositoryFile home = Some (RegistryData (Update f0 c))
  /\ entries_named name (Update f0 c) = [c]
  /\ wf_registry (Update f0 c).
Proof.
  intros c [Hf1 Hw1] [Hf2 Hw2] Hne Hp Hwf Hrun1 Hrun2.
  apply success_inv in Hrun1 as (idx1 & f1 & _ & Hp1 & Hfs1 & _).
  apply success_inv in Hrun2 as (idx2 & f2 & _ & Hp2 & Hfs2 & _).
  unfold disk_at_lock, disk_after_fetch in *. simpl in *.
  rewrite Hw1, Hf1 in Hp1, Hfs1. rewrite Hw2, Hf2 in Hp2, Hfs2.
  rewrite lookup_insert_ne in Hp1 by done. rewrite Hp in Hp1.
  injection Hp1 as <-.
  rewrite Hfs1, lookup_insert_ne, lookup_insert_eq in Hp2 by done.
  injection Hp2 as <-.
  rewrite Hfs2, Hfs1, !lookup_insert_eq. fold c. rewrite Update_idem.
  repeat split.
  - apply (Update_entries_named f0 c Hwf).
  - by apply Update_wf.
Qed.


(** ** The theorems at the sample invocations *)

(** With [racing_env] the first load sees no registry and the load under
    the lock sees the entry of the other process: both entries are in the
    file in the end. *)
Lemma reload_merge_write_witness :
  exists w',
    demo_call racing_env false (start ∅) = (w', Ok tt)
    /\ files w' !! RepositoryFile demo_home
       = Some (RegistryData [other_entry; demo_entry]).
Proof.
  destruct (reload_merge_write racing_env "stable" "https://charts.example.com"
              "" "" demo_home "" "" "" ∅ false "index of stable" (3 * Second)
              [other_entry])
    as (w' & Hrun & _ & Hreg & _); try (vm_compute; reflexivity).
  exists w'. split; [exact Hrun | exact Hreg].
Defined.

Lemma write_only_under_lock_witness :
  writes_locked (RepositoryFile demo_home) false
    (trace (fst (demo_call busy_env false (start demo_disk)))) = true
  /\ exists e, snd (demo_call busy_env false (start demo_disk)) = Err e.
Proof.
  destruct (write_only_under_lock busy_env "stable" "https://charts.example.com"
              "" "" demo_home "" "" "" demo_disk false
              (fst (demo_call busy_env false (start demo_disk)))
              (snd (demo_call busy_env false (start demo_disk)))) as [Hw Hf].
  - discriminate.
  - vm_compute; reflexivity.
  - split; [exact Hw|]. apply Hf. vm_compute; reflexivity.
Defined.

Lemma lock_timeout_bounded_witness :
  exists w',
    demo_call busy_env false (start demo_disk) = (w', Err LockTimeout)
    /\ files w' !! RepositoryFile demo_home = Some (RegistryData [stale_entry])
    /\ waited w' = 30 * Second.
Proof.
  destruct (lock_timeout_bounded busy_env "stable" "https://charts.example.com"
              "" "" demo_home "" "" "" demo_disk false) as [_ Hb].
  destruct (Hb "index of stable") as (w' & Hrun & Hfs & Hw & _);
    [vm_compute; reflexivity | vm_compute; reflexivity | intros; reflexivity |].
  exists w'. split; [exact Hrun|]. split; [|exact Hw].
  rewrite Hfs. vm_compute; reflexivity.
Defined.

Lemma fetch_failure_aborts_witness :
  exists w',
    demo_call unreachable_env false (start demo_disk)
    = (w', Err (ErrInvalidRepo "https://charts.example.com" (FetchError "404 Not Found")))
    /\ files w' = demo_disk.
Proof.
  destruct (fetch_failure_aborts unreachable_env "stable" "https://charts.example.com"
              "" "" demo_home "" "" "" demo_disk false (FetchError "404 Not Found"))
    as (w' & Hrun & Hfs & _); [vm_compute; reflexivity | vm_compute; reflexivity |].
  exists w'. split; [exact Hrun | exact Hfs].
Defined.

Lemma interrupted_write_atomic_witness :
  exists w',
    demo_call dying_env false (start demo_disk) = (w', Crash)
    /\ parse_registry (RepositoryFile demo_home) (files w' !! RepositoryFile demo_home)
       = Ok [stale_entry].
Proof.
  destruct (interrupted_write_atomic dying_env "stable" "https://charts.example.com"
              "" "" demo_home "" "" "" demo_disk false "index of stable" 0
              [stale_entry] BeforeRename)
    as (w' & Hrun & _ & Hp); try (vm_compute; reflexivity).
  exists w'. split; [exact Hrun | exact Hp].
Defined.

Lemma duplicate_name_rejected_witness :
  exists w',
    demo_call calm_env true (start demo_disk) = (w', Err (ErrExists "stable"))
    /\ files w' = demo_disk.
Proof.
  destruct (duplicate_name_rejected calm_env "stable" "https://charts.example.com"
              "" "" demo_home "" "" "" demo_disk [stale_entry])
    as (w' & Hrun & Hfs & _); [vm_compute; reflexivity | vm_compute; reflexivity |].
  exists w'. split; [exact Hrun | exact Hfs].
Defined.

Lemma first_run_witness :
  exists w',
    demo_call calm_env false (start ∅) = (w', Ok tt)
    /\ files w' !! RepositoryFile demo_home = Some (RegistryData [demo_entry]).
Proof.
  destruct (first_run calm_env "stable" "https://charts.example.com"
              "" "" demo_home "" "" "" ∅ false "index of stable" 0) as [_ Hrun].
  destruct Hrun as (w' & Hrun & Hreg & _);
    [by split | discriminate | vm_compute; reflexivity..|].
  exists w'. split; [exact Hrun | exact Hreg].
Defined.

Lemma fetch_outside_lock_witness :
  lock_scoped false false
    (trace (fst (demo_call failing_disk_env false (start demo_disk)))) = true
  /\ held (fst (demo_call failing_disk_env false (start demo_disk))) = false.
Proof.
  destruct (fetch_outside_lock failing_disk_env "stable" "https://charts.example.com"
              "" "" demo_home "" "" "" demo_disk false
              (fst (demo_call failing_disk_env false (start demo_disk)))
              (snd (demo_call failing_disk_env false (start demo_disk))))
    as [Hs Hh].
  - vm_compute; reflexivity.
  - split; [exact Hs|]. apply Hh. vm_compute. discriminate.
Defined.

Lemma add_twice_one_entry_witness :
  files (fst (demo_call calm_env false
                (fresh (fst (demo_call calm_env false (start demo_disk))))))
    !! RepositoryFile demo_home
  = Some (RegistryData [demo_entry]).
Proof.
  destruct (add_twice_one_entry calm_env calm_env "stable" "https://charts.example.com"
              "" "" demo_home "" "" "" demo_disk [stale_entry]
              (fst (demo_call calm_env false (start demo_disk)))
              (fst (demo_call calm_env false
                      (fresh (fst (demo_call calm_env false (start demo_disk)))))))
    as (_ & H2 & _).
  - by split.
  - by split.
  - discriminate.
  - vm_compute; reflexivity.
  - apply NoDup_singleton.
  - vm_compute; reflexivity.
  - vm_compute; reflexivity.
  - exact H2.
Defined.

Lemma cache_survives_failure_witness :
  files (fst (demo_call failing_disk_env false (start demo_disk)))
    !! CacheIndex demo_home "stable" = Some (IndexData "index of stable")
  /\ files (fst (demo_call failing_disk_env false (start demo_disk)))
       !! RepositoryFile demo_home = Some (RegistryData [stale_entry]).
Proof.
  destruct (cache_survives_failure failing_disk_env "stable" "https://charts.example.com"
              "" "" demo_home "" "" "" demo_disk false "index of stable"
              (fst (demo_call failing_disk_env false (start demo_disk)))
              (PersistenceError (RepositoryFile demo_home)))
    as (Hc & Hfs & _);
    [vm_compute; reflexivity | vm_compute; reflexivity | done
    | vm_compute; reflexivity |].
  split; [exact Hc|]. rewrite Hfs. vm_compute; reflexivity.
Defined.

(** ** More on the polling loop *)

(** The attempts that find the lock busy are passed over: the loop answers
    as a single attempt at the first time the lock is not busy. *)
Lemma poll_skip_busy probe timeout delay (n k : nat) (t : Z) :
  (k < n)%nat ->
  (forall i : nat, (i < k)%nat -> probe (t + Z.of_nat i * delay) = LockBusy) ->
  probe (t + Z.of_nat k * delay) <> LockBusy ->
  poll probe timeout delay n t
  = poll probe timeout delay 1 (t + Z.of_nat k * delay).
Proof.
  revert n t. induction k as [|k IH]; intros n t Hk Hbusy Hend.
  - destruct n as [|n]; [lia|]. replace (t + Z.of_nat 0 * delay) with t in * by lia.
    simpl. by destruct (probe t).
  - destruct n as [|n]; [lia|]. cbn [poll].
    pose proof (Hbusy 0%nat ltac:(lia)) as H0.
    replace (t + Z.of_nat 0 * delay) with t in H0 by lia. rewrite H0.
    destruct n as [|n]; [lia|].
    replace (t + Z.of_nat (S k) * delay) with ((t + delay) + Z.of_nat k * delay) in * by lia.
    apply IH; [lia| |done].
    intros i Hi. specialize (Hbusy (S i) ltac:(lia)). rewrite <- Hbusy. f_equal. lia.
Qed.

Lemma tryCtx_30s_free_after probe (k : nat) :
  (k < 30)%nat ->
  (forall i : nat, (i < k)%nat -> probe (Z.of_nat i * Second) = LockBusy) ->
  probe (Z.of_nat k * Second) = LockFree ->
  tryCtx probe (30 * Second) Second = (true, None, Z.of_nat k * Second).
Proof.
  intros Hk Hbusy Hfree. unfold tryCtx. rewrite polls_30s.
  rewrite (poll_skip_busy probe _ _ 30 k 0 Hk).
  - simpl. replace (0 + Z.of_nat k * Second) with (Z.of_nat k * Second) by lia.
    by rewrite Hfree.
  - intros i Hi. rewrite <- (Hbusy i Hi). f_equal; lia.
  - replace (0 + Z.of_nat k * Second) with (Z.of_nat k * Second) by lia.
    by rewrite Hfree.
Qed.

Lemma tryCtx_30s_fault_after probe (k : nat) (msg : string) :
  (k < 30)%nat ->
  (forall i : nat, (i < k)%nat -> probe (Z.of_nat i * Second) = LockBusy) ->
  probe (Z.of_nat k * Second) = LockFault msg ->
  tryCtx probe (30 * Second) Second
  = (false, Some (LockAcquisitionError msg), Z.of_nat k * Second).
Proof.
  intros Hk Hbusy Hfault. unfold tryCtx. rewrite polls_30s.
  rewrite (poll_skip_busy probe _ _ 30 k 0 Hk).
  - simpl. replace (0 + Z.of_nat k * Second) with (Z.of_nat k * Second) by lia.
    by rewrite Hfault.
  - intros i Hi. rewrite <- (Hbusy i Hi). f_equal; lia.
  - replace (0 + Z.of_nat k * Second) with (Z.of_nat k * Second) by lia.
    by rewrite Hfault.
Qed.

(** ** More on one invocation *)

Section InvocationMore.
Variable env : Env.
Variables name url username password : string.
Variable home : Home.
Variables certFile keyFile caFile : string.

Local Abbreviation reg := (RepositoryFile home).
Local Abbreviation cif := (CacheIndex home name).
Local Abbreviation c := (mkEntry name cif url username password certFile keyFile caFile).
Local Abbreviation call := (addRepository env name url username password home
                          certFile keyFile caFile).

(** An invocation dies only in the write. *)
Lemma crash_inv (noUpdate : bool) (w0 w' : World) :
  call noUpdate w0 = (w', Crash) ->
  exists p, write_end env = WriteInterrupted p.
Proof.
  unfold_run. simpl.
  destruct (parse_registry reg (files w0 !! reg)) as [f0| |] eqn:Hp0; simpl;
    [|done|by apply parse_registry_returns in Hp0].
  destruct (noUpdate && Has f0 name); simpl; [done|].
  destruct (getter_fault env c); simpl; [done|].
  destruct (remote_index env c) as [e|idx]; simpl; [done|].
  destruct (tryCtx _ _ _) as [[b err] t] eqn:Hl.
  apply tryCtx_sound in Hl as [[-> ->]|[-> [e ->]]]; simpl; [|done].
  clear Hp0.
  destruct (parse_registry _ _) as [f1| |] eqn:Hp1; simpl;
    [|done|by apply parse_registry_returns in Hp1].
  destruct (write_end env) as [|s|p]; simpl; [done|by destruct s|].
  intros _. by exists p.
Qed.

(** X1: the flag [noUpdate] changes nothing unless the registry of the
    first load has the name: on any other disk the invocation with the flag
    is the invocation without it. *)
Theorem no_update_only_for_known_name (w : World) :
  (forall f0, files w !! reg = Some (RegistryData f0) -> Has f0 name = false) ->
  call true w = call false w.
Proof.
  intros Hnew. unfold addRepository, bind at 1. unfold LoadRepositoriesFile at 1.
  symmetry. unfold addRepository, bind at 1. unfold LoadRepositoriesFile at 1.
  destruct (files w !! reg) as [[f0| | |]|] eqn:Hreg; simpl; try done.
  by rewrite (Hnew f0).
Qed.

(** X2: the check of [noUpdate] is not made again under the lock.  When
    another process registers the name after the first load, the
    invocation with [noUpdate] still succeeds, and the entry of the other
    process is replaced by the candidate. *)
Theorem no_update_race_overwrites (fs : gmap string content) (idx : string)
    (t : Z) (f1 : RepoFile) :
  reaches_fetch env c reg true fs = true ->
  remote_index env c = inr idx ->
  tryCtx (lock_probe env) (30 * Second) Second = (true, None, t) ->
  parse_registry reg (disk_at_lock env cif idx fs !! reg) = Ok f1 ->
  Has f1 name = true ->
  wf_registry f1 ->
  write_end env = WriteCompletes ->
  (forall f0, parse_registry reg (fs !! reg) = Ok f0 -> Has f0 name = false)
  /\ exists w',
       call true (start fs) = (w', Ok tt)
       /\ files w' !! reg = Some (RegistryData (Update f1 c))
       /\ entries_named name (Update f1 c) = [c]
       /\ names (Update f1 c) = names f1.
Proof.
  intros Hr Hf Hl Hp Hhas Hwf Hw. split.
  - intros f0 Hp0. unfold reaches_fetch in Hr. rewrite Hp0 in Hr.
    apply andb_true_iff in Hr as [Hdup _]. apply negb_true_iff in Hdup.
    exact Hdup.
  - rewrite (run_locked _ _ _ _ _ _ _ _ _ _ _ _ _ Hr Hf Hl).
    unfold deferring, bind, LoadRepositoriesFile, WriteFile. simpl.
    rewrite Hp, Hw. simpl. eexists. split; [done|]. simpl.
    rewrite lookup_insert_eq. split; [done|]. split.
    + apply (Update_entries_named f1 c Hwf).
    + by apply (Update_names_has f1 c).
Qed.

(** X3: an error of the first load or of [NewChartRepository] is returned
    as it is, before anything is fetched: the files are untouched and the
    process has only loaded the registry. *)
Theorem early_errors_touch_nothing (fs : gmap string content) (noUpdate : bool)
    (e : error) :
  parse_registry reg (fs !! reg) = Err e
  \/ (exists f0, parse_registry reg (fs !! reg) = Ok f0
                 /\ noUpdate && Has f0 name = false
                 /\ getter_fault env c = Some e) ->
  call noUpdate (start fs) = (mkWorld fs [] false 0 [EvLoad reg], Err e).
Proof.
  intros [Hp|(f0 & Hp & Hdup & Hg)]; unfold_run; simpl; rewrite Hp; simpl.
  - done.
  - rewrite Hdup. simpl. by rewrite Hg.
Qed.

(** X4: success is returned only once the registry is written: the file
    holds a registry with the candidate entry, the temporary file is gone,
    the lock is released, and the last things the process did are the
    steps of the write and the unlocking. *)
Theorem success_means_committed (fs : gmap string content) (noUpdate : bool)
    (w' : World) :
  call noUpdate (start fs) = (w', Ok tt) ->
  (exists f, files w' !! reg = Some (RegistryData f) /\ c ∈ f)
  /\ temps w' = []
  /\ held w' = false
  /\ exists before,
       trace w' = (before ++ [EvCreateTemp; EvFillTemp; EvRename reg 420; EvUnlock reg])%list.
Proof.
  intros Hrun.
  destruct (run_ends env name url username password home certFile keyFile caFile
              fs noUpdate) as (w & r0 & Hrun' & Hends).
  rewrite Hrun in Hrun'. injection Hrun' as <- <-.
  inversion Hends as [| | | | | |idx t f1 Hr Hf Hl Hp Hw| |]; subst; simpl.
  split; [|split; [done|split; [done|]]].
  - exists (Update f1 c). rewrite lookup_insert_eq. split; [done|]. apply Update_elem.
  - by exists (trace_to_lock reg cif url ++ [EvAcquired reg; EvLoad reg])%list.
Qed.

(** X5: a lock that is busy for [k] seconds, [k] under thirty, and free
    at the next attempt is taken at that attempt: the invocation has
    waited [k] seconds and goes on to write the registry. *)
Theorem lock_taken_after_wait (fs : gmap string content) (noUpdate : bool)
    (idx : string) (f1 : RepoFile) (k : nat) :
  reaches_fetch env c reg noUpdate fs = true ->
  remote_index env c = inr idx ->
  (k < 30)%nat ->
  (forall i : nat, (i < k)%nat -> lock_probe env (Z.of_nat i * Second) = LockBusy) ->
  lock_probe env (Z.of_nat k * Second) = LockFree ->
  parse_registry reg (disk_at_lock env cif idx fs !! reg) = Ok f1 ->
  write_end env = WriteCompletes ->
  exists w',
    call noUpdate (start fs) = (w', Ok tt)
    /\ waited w' = Z.of_nat k * Second
    /\ files w' !! reg = Some (RegistryData (Update f1 c)).
Proof.
  intros Hr Hf Hk Hbusy Hfree Hp Hw.
  pose proof (tryCtx_30s_free_after _ k Hk Hbusy Hfree) as Hl.
  rewrite (run_locked _ _ _ _ _ _ _ _ _ _ _ _ _ Hr Hf Hl).
  unfold deferring, bind, LoadRepositoriesFile, WriteFile. simpl.
  rewrite Hp, Hw. simpl. eexists. split; [done|]. simpl.
  by rewrite lookup_insert_eq.
Qed.

(** X6: a failure of the lock that is not contention ends the waiting at
    once: the error is returned as it is, after the seconds the lock was
    busy, and nothing is loaded or written after it. *)
Theorem lock_fault_returned (fs : gmap string content) (noUpdate : bool)
    (idx msg : string) (k : nat) :
  reaches_fetch env c reg noUpdate fs = true ->
  remote_index env c = inr idx ->
  (k < 30)%nat ->
  (forall i : nat, (i < k)%nat -> lock_probe env (Z.of_nat i * Second) = LockBusy) ->
  lock_probe env (Z.of_nat k * Second) = LockFault msg ->
  exists w',
    call noUpdate (start fs) = (w', Err (LockAcquisitionError msg))
    /\ waited w' = Z.of_nat k * Second
    /\ files w' = disk_at_lock env cif idx fs
    /\ held w' = false
    /\ trace w' = trace_to_lock reg cif url.
Proof.
  intros Hr Hf Hk Hbusy Hfault.
  pose proof (tryCtx_30s_fault_after _ k msg Hk Hbusy Hfault) as Hl.
  rewrite (run_not_locked _ _ _ _ _ _ _ _ _ _ _ _ _ _ Hr Hf Hl).
  eexists. split; [done|]. simpl. by repeat split.
Qed.

End InvocationMore.

(** X7: after a successful invocation, an invocation for the same name
    with [noUpdate] is refused with the duplicate-name error at its first
    load, whatever its other arguments and whatever happens around it: the
    files stay as the first invocation left them. *)
Theorem no_update_after_add (env1 env2 : Env)
    (name url1 username1 password1 url2 username2 password2 : string) (home : Home)
    (certFile1 keyFile1 caFile1 certFile2 keyFile2 caFile2 : string)
    (noUpdate1 : bool) (w0 w1 : World) :
  addRepository env1 name url1 username1 password1 home certFile1 keyFile1 caFile1
    noUpdate1 w0 = (w1, Ok tt) ->
  addRepository env2 name url2 username2 password2 home certFile2 keyFile2 caFile2
    true (fresh w1)
  = (mkWorld (files w1) (temps w1) false 0 [EvLoad (RepositoryFile home)],
     Err (ErrExists name)).
Proof.
  intros Hrun1.
  apply success_inv in Hrun1 as (idx1 & f1 & _ & _ & Hfs1 & _).
  set (c1 := mkEntry name (CacheIndex home name) url1 username1 password1
               certFile1 keyFile1 caFile1) in *.
  assert (Has (Update f1 c1) name = true) as Hhas.
  { apply Has_elem_of. unfold names.
    apply (list_elem_of_fmap_2 Name (Update f1 c1) c1), Update_elem. }
  unfold_run. simpl. rewrite Hfs1, lookup_insert_eq. simpl.
  rewrite Hhas. unfold log, fresh. simpl. by rewrite Hfs1.
Qed.

(** ** The command *)

Section Command.
Variable env : Env.
Variable quote : string -> string.

(** What [run] does once the password is settled. *)
Lemma run_no_prompt (tty : error + string) (a : repoAddCmd) (st : Session) :
  negb (String.eqb (Cmd.username a) "") && String.eqb (Cmd.password a) "" = false ->
  run env quote tty a st
  = match addRepository_of env a (world st) with
    | (w, Ok _) =>
        (a, Fprint (confirmation quote (Cmd.name a)) (mkSession w (out st)), Ok tt)
    | (w, Err e) => (a, mkSession w (out st), Err e)
    | (w, Crash) => (a, mkSession w (out st), Crash)
    end.
Proof. intros Hcond. unfold run. by rewrite Hcond. Qed.

Lemma run_prompt (password : string) (a : repoAddCmd) (st : Session) :
  negb (String.eqb (Cmd.username a) "") && String.eqb (Cmd.password a) "" = true ->
  run env quote (inr password) a st
  = match addRepository_of env (set_password password a) (world st) with
    | (w, Ok _) =>
        (set_password password a,
         Fprint (confirmation quote (Cmd.name a))
           (mkSession w (out (Fprint nl (Fprint "Password:" st)))),
         Ok tt)
    | (w, Err e) =>
        (set_password password a, mkSession w (out (Fprint nl (Fprint "Password:" st))), Err e)
    | (w, Crash) =>
        (set_password password a, mkSession w (out (Fprint nl (Fprint "Password:" st))), Crash)
    end.
Proof. intros Hcond. unfold run. rewrite Hcond. by simpl. Qed.

(** X8: the password is asked for only when there is a user name and no
    password.  Otherwise the terminal is not read and nothing but the
    confirmation is written: the command returns what [addRepository]
    returns, and its password is the one it had. *)
Theorem run_asks_only_when_needed (tty tty' : error + string) (a : repoAddCmd)
    (st : Session) :
  Cmd.username a = "" \/ Cmd.password a <> "" ->
  run env quote tty a st = run env quote tty' a st
  /\ fst (fst (run env quote tty a st)) = a
  /\ snd (run env quote tty a st) = snd (addRepository_of env a (world st))
  /\ out (snd (fst (run env quote tty a st)))
     = match snd (addRepository_of env a (world st)) with
       | Ok _ => out st ++ confirmation quote (Cmd.name a)
       | _ => out st
       end.
Proof.
  intros Hcase.
  assert (negb (String.eqb (Cmd.username a) "") && String.eqb (Cmd.password a) ""
          = false) as Hcond.
  { destruct Hcase as [Hu|Hp].
    - rewrite Hu. done.
    - apply String.eqb_neq in Hp. rewrite Hp. apply andb_false_r. }
  rewrite !run_no_prompt by done.
  destruct (addRepository_of env a (world st)) as [w [[]|e|]]; done.
Qed.

(** X9: when the password cannot be read the command returns the error of
    the terminal after the prompt and the line feed; [addRepository] is not
    called, so the world is untouched, and the password stays empty. *)
Theorem run_prompt_failure (e : error) (a : repoAddCmd) (st : Session) :
  Cmd.username a <> "" ->
  Cmd.password a = "" ->
  run env quote (inl e) a st
  = (a, mkSession (world st) ((out st ++ "Password:") ++ nl), Err e).
Proof.
  intros Hu Hp. unfold run. apply String.eqb_neq in Hu. rewrite Hu, Hp. done.
Qed.

(** X10: the password typed at the prompt is the password of the entry:
    when the command succeeds after asking, the command holds the typed
    password and the registry file holds the entry with that password. *)
Theorem typed_password_is_registered (typed : string) (a a' : repoAddCmd)
    (st st' : Session) :
  Cmd.username a <> "" ->
  Cmd.password a = "" ->
  run env quote (inr typed) a st = (a', st', Ok tt) ->
  Cmd.password a' = typed
  /\ exists f,
       files (world st') !! RepositoryFile (Cmd.home a) = Some (RegistryData f)
       /\ mkEntry (Cmd.name a) (CacheIndex (Cmd.home a) (Cmd.name a)) (Cmd.url a)
            (Cmd.username a) typed (Cmd.certFile a) (Cmd.keyFile a) (Cmd.caFile a)
          ∈ f.
Proof.
  intros Hu Hp. apply String.eqb_neq in Hu.
  rewrite run_prompt by (by rewrite Hu, Hp).
  destruct (addRepository_of env (set_password typed a) (world st))
    as [w [[]|e|]] eqn:Hadd; [|done..].
  intros [= <- <-]. split; [done|].
  unfold addRepository_of in Hadd. simpl in Hadd.
  apply success_inv in Hadd as (idx & f1 & _ & _ & Hfs & _).
  eexists. simpl. rewrite Hfs, lookup_insert_eq. split; [done|]. apply Update_elem.
Qed.

(** X11: the confirmation is written exactly when the command succeeds:
    a successful command ends its output with the confirmation, and a
    command that fails or dies has written nothing but, when it asked, the
    prompt and the line feed. *)
Theorem confirmation_iff_success (tty : error + string) (a a' : repoAddCmd)
    (st st' : Session) (r : outcome unit) :
  run env quote tty a st = (a', st', r) ->
  (r = Ok tt -> exists before, out st' = before ++ confirmation quote (Cmd.name a))
  /\ (r <> Ok tt ->
      out st' = out st \/ out st' = (out st ++ "Password:") ++ nl).
Proof.
  unfold run.
  destruct (negb (String.eqb (Cmd.username a) "") && String.eqb (Cmd.password a) "").
  - destruct tty as [e|typed]; simpl.
    + intros [= <- <- <-]. split; [done|]. intros _. by right.
    + destruct (addRepository_of env (set_password typed a) (world st))
        as [w [[]|e|]]; intros [= <- <- <-]; simpl; (split; [|intros Hne]);
        try done; eauto.
  - destruct (addRepository_of env a (world st)) as [w [[]|e|]];
      intros [= <- <- <-]; simpl; (split; [|intros Hne]); try done; eauto.
Qed.

(** X12: when [checkArgsLength] lets through only the number of arguments
    it is asked for, the command never reads an argument that is not
    there: it dies only where [addRepository] dies, in an interrupted
    write. *)
Theorem RunE_no_index_panic (tty : error + string)
    (checkArgsLength : nat -> list string -> option error) (settings_home : Home)
    (add add' : repoAddCmd) (args : list string) (st st' : Session) :
  (forall n required, checkArgsLength n required = None -> n = length required) ->
  RunE env quote tty checkArgsLength settings_home add args st = (add', st', Crash) ->
  exists p, write_end env = WriteInterrupted p.
Proof.
  intros Hcheck. unfold RunE.
  destruct (checkArgsLength _ _) eqn:Hc; [done|].
  apply Hcheck in Hc. destruct args as [|arg0 [|arg1 [|]]]; try done. simpl.
  unfold run.
  destruct (negb _ && _).
  - destruct tty as [e|typed]; simpl; [done|].
    destruct (addRepository_of _ _ _) as [w [[]|e|]] eqn:Hadd; try done.
    intros _. unfold addRepository_of in Hadd. by apply crash_inv in Hadd.
  - destruct (addRepository_of _ _ _) as [w [[]|e|]] eqn:Hadd; try done.
    intros _. unfold addRepository_of in Hadd. by apply crash_inv in Hadd.
Qed.

End Command.

(** ** The further theorems at sample invocations *)

Lemma no_update_only_for_known_name_witness :
  demo_call calm_env true (start ∅) = demo_call calm_env false (start ∅).
Proof.
  apply (no_update_only_for_known_name calm_env "stable" "https://charts.example.com"
           "" "" demo_home "" "" "" (start ∅)).
  intros f0 H. vm_compute in H. discriminate H.
Defined.

Lemma no_update_race_overwrites_witness :
  exists w',
    demo_call same_name_race_env true (start ∅) = (w', Ok tt)
    /\ files w' !! RepositoryFile demo_home = Some (RegistryData [demo_entry]).
Proof.
  destruct (no_update_race_overwrites same_name_race_env "stable"
              "https://charts.example.com" "" "" demo_home "" "" ""
              ∅ "index of stable" 0 [stale_entry])
    as (_ & w' & Hrun & Hreg & _); try (vm_compute; reflexivity).
  - apply NoDup_singleton.
  - exists w'. split; [exact Hrun | exact Hreg].
Defined.

Lemma early_errors_touch_nothing_witness :
  demo_call no_getter_env false (start demo_disk)
  = (mkWorld demo_disk [] false 0 [EvLoad (RepositoryFile demo_home)],
     Err (GetterError "no protocol handler")).
Proof.
  apply (early_errors_touch_nothing no_getter_env "stable" "https://charts.example.com"
           "" "" demo_home "" "" "" demo_disk false).
  right. exists [stale_entry]. repeat split; vm_compute; reflexivity.
Defined.

Lemma success_means_committed_witness :
  temps (fst (demo_call calm_env false (start demo_disk))) = []
  /\ held (fst (demo_call calm_env false (start demo_disk))) = false.
Proof.
  destruct (success_means_committed calm_env "stable" "https://charts.example.com"
              "" "" demo_home "" "" "" demo_disk false
              (fst (demo_call calm_env false (start demo_disk))))
    as (_ & Ht & Hh & _); [vm_compute; reflexivity|].
  split; [exact Ht | exact Hh].
Defined.

Lemma lock_taken_after_wait_witness :
  exists w',
    demo_call racing_env false (start ∅) = (w', Ok tt)
    /\ waited w' = 3 * Second.
Proof.
  destruct (lock_taken_after_wait racing_env "stable" "https://charts.example.com"
              "" "" demo_home "" "" "" ∅ false "index of stable" [other_entry] 3)
    as (w' & Hrun & Hw & _).
  - vm_compute; reflexivity.
  - vm_compute; reflexivity.
  - lia.
  - intros i Hi. destruct i as [|[|[|i]]]; [vm_compute; reflexivity..|lia].
  - vm_compute; reflexivity.
  - vm_compute; reflexivity.
  - vm_compute; reflexivity.
  - exists w'. split; [exact Hrun | exact Hw].
Defined.

Lemma lock_fault_returned_witness :
  exists w',
    demo_call broken_lock_env false (start demo_disk)
    = (w', Err (LockAcquisitionError "bad file descriptor"))
    /\ waited w' = 2 * Second
    /\ files w' !! RepositoryFile demo_home = Some (RegistryData [stale_entry]).
Proof.
  destruct (lock_fault_returned broken_lock_env "stable" "https://charts.example.com"
              "" "" demo_home "" "" "" demo_disk false "index of stable"
              "bad file descriptor" 2)
    as (w' & Hrun & Hw & Hfs & _).
  - vm_compute; reflexivity.
  - vm_compute; reflexivity.
  - lia.
  - intros i Hi. destruct i as [|[|i]]; [vm_compute; reflexivity..|lia].
  - vm_compute; reflexivity.
  - exists w'. split; [exact Hrun|]. split; [exact Hw|].
    rewrite Hfs. vm_compute; reflexivity.
Defined.

Lemma no_update_after_add_witness :
  snd (addRepository unreachable_env "stable" "https://other.example.com" "bob" "pw"
         demo_home "" "" "" true
         (fresh (fst (demo_call calm_env false (start ∅)))))
  = Err (ErrExists "stable").
Proof.
  rewrite (no_update_after_add calm_env unreachable_env "stable"
             "https://charts.example.com" "" "" "https://other.example.com" "bob" "pw"
             demo_home "" "" "" "" "" "" false (start ∅)
             (fst (demo_call calm_env false (start ∅)))).
  - reflexivity.
  - vm_compute; reflexivity.
Defined.

Lemma run_asks_only_when_needed_witness :
  run calm_env demo_quote (inl (FetchError "not a terminal")) anonymous_cmd
    (mkSession (start ∅) "")
  = run calm_env demo_quote (inr "typed") anonymous_cmd (mkSession (start ∅) "").
Proof.
  apply (run_asks_only_when_needed calm_env demo_quote
           (inl (FetchError "not a terminal")) (inr "typed") anonymous_cmd
           (mkSession (start ∅) "")).
  left. reflexivity.
Defined.

Lemma run_prompt_failure_witness :
  run calm_env demo_quote (inl (FetchError "not a terminal")) demo_cmd
    (mkSession (start demo_disk) "")
  = (demo_cmd, mkSession (start demo_disk) (("" ++ "Password:") ++ nl),
     Err (FetchError "not a terminal")).
Proof.
  apply (run_prompt_failure calm_env demo_quote (FetchError "not a terminal") demo_cmd
           (mkSession (start demo_disk) "")).
  - discriminate.
  - reflexivity.
Defined.

Lemma typed_password_is_registered_witness :
  Cmd.password
    (fst (fst (run calm_env demo_quote (inr "s3cret") demo_cmd (mkSession (start ∅) ""))))
  = "s3cret".
Proof.
  destruct (typed_password_is_registered calm_env demo_quote "s3cret" demo_cmd
              (fst (fst (run calm_env demo_quote (inr "s3cret") demo_cmd
                           (mkSession (start ∅) ""))))
              (mkSession (start ∅) "")
              (snd (fst (run calm_env demo_quote (inr "s3cret") demo_cmd
                           (mkSession (start ∅) "")))))
    as [Hpw _].
  - discriminate.
  - reflexivity.
  - vm_compute; reflexivity.
  - exact Hpw.
Defined.

Lemma confirmation_iff_success_witness :
  exists before,
    out (snd (fst (run calm_env demo_quote (inr "s3cret") demo_cmd
                     (mkSession (start ∅) ""))))
    = before ++ confirmation demo_quote "stable".
Proof.
  destruct (confirmation_iff_success calm_env demo_quote (inr "s3cret") demo_cmd
              (fst (fst (run calm_env demo_quote (inr "s3cret") demo_cmd
                           (mkSession (start ∅) ""))))
              (mkSession (start ∅) "")
              (snd (fst (run calm_env demo_quote (inr "s3cret") demo_cmd
                           (mkSession (start ∅) ""))))
              (Ok tt))
    as [Hok _].
  - vm_compute; reflexivity.
  - apply Hok. reflexivity.
Defined.

Lemma RunE_no_index_panic_witness :
  exists p, write_end dying_env = WriteInterrupted p.
Proof.
  apply (RunE_no_index_panic dying_env demo_quote (inr "typed") demo_check demo_home
           anonymous_cmd
           (fst (fst (RunE dying_env demo_quote (inr "typed") demo_check demo_home
                        anonymous_cmd ["stable"; "https://charts.example.com"]
                        (mkSession (start ∅) ""))))
           ["stable"; "https://charts.example.com"]
           (mkSession (start ∅) "")
           (snd (fst (RunE dying_env demo_quote (inr "typed") demo_check demo_home
                        anonymous_cmd ["stable"; "https://charts.example.com"]
                        (mkSession (start ∅) ""))))).
  - intros n required H. unfold demo_check in H.
    destruct (Nat.eqb_spec n (length required)) as [Heq|Hne]; [exact Heq | discriminate H].
  - vm_compute; reflexivity.
Defined.
